(** * RapidAPI Connect, Node.js SDK: a shallow embedding of [index.js]

    The development follows the class [RapidAPI] of [index.js]:

    - [Module Js] holds the fragment of JavaScript the class relies on:
      the values that flow through it, [typeof], truthiness, [ToString],
      own-property tests and property reads, and a small monad that
      threads the log of observable effects and the uncaught exception.
    - [Module RapidAPI] holds the class itself: the URL builders, [call]
      with its callback table, its registrar and its response handler, and
      [listen] with the token exchange and the three socket hooks.

    [JSON.parse] and [JSON.stringify] are built-ins of the host, not code
    of the class: they are section variables, and every statement holds
    for whichever functions are supplied for them. *)

From Stdlib Require Import Ascii.
From stdpp Require Import base strings gmap list pretty.

Set Warnings "-register-all".

Open Scope Z_scope.

Module Js.

(** ** Values *)

(** The data that reaches the class from the network or from the parser:
    [undefined], [null], booleans, numbers (integers that print in plain
    decimal; the class does no arithmetic), strings, arrays and plain
    objects.  A plain object is the list of its own properties in
    insertion order, each key once. *)
Inductive Data : Type :=
  | JUndefined
  | JNull
  | JBool (b : bool)
  | JNum (n : Z)
  | JStr (s : string)
  | JArr (xs : list Data)
  | JObj (fields : list (string * Data)).

(** How a piece of code ends other than by running to its end: with an
    exception, or, for [Inherited k], by applying as a function the value
    of a property [k] that the object does not own and that the lookup
    takes from the built-in prototype chain (a built-in method, or
    [undefined], which is a [TypeError]); nothing the caller supplied
    runs there, and the class does nothing after it. *)
Inductive Fault : Type :=
  | TypeError
  | SyntaxError
  | Thrown (v : Data)
  | Inherited (k : string).

(** The outcome of applying a user function: it returns or it throws. *)
Inductive CallResult : Type :=
  | Returns (v : Data)
  | Throws (v : Data).

(** A function supplied by the caller.  [hid] is the identity of the
    function object ([===]), [hrun] its behaviour on its arguments
    (a returned function or object is any truthy value), and [hwritable k]
    tells whether an assignment [o[k] = v] succeeds on an object [o] that
    inherits from the function object: it is [false] for the names the
    function holds read-only (at least [name] and [length]), [true]
    otherwise.  A function object carries its standard properties only,
    and a function does not reach back into the table it is stored in. *)
Record Handler : Type := mkHandler {
  hid : nat;
  hrun : list Data -> CallResult;
  hwritable : string -> bool
}.

(** An argument of a call made by the user: data or a function. *)
Inductive Arg : Type :=
  | AData (d : Data)
  | AFun (h : Handler).

(** [typeof]. *)
Definition typeof (d : Data) : string :=
  match d with
  | JUndefined => "undefined"
  | JNull => "object"
  | JBool _ => "boolean"
  | JNum _ => "number"
  | JStr _ => "string"
  | JArr _ => "object"
  | JObj _ => "object"
  end.

Definition typeof_arg (a : Arg) : string :=
  match a with
  | AData d => typeof d
  | AFun _ => "function"
  end.

(** [ToBoolean]. *)
Definition truthy (d : Data) : bool :=
  match d with
  | JUndefined | JNull => false
  | JBool b => b
  | JNum n => negb (n =? 0)
  | JStr s => negb (String.eqb s "")
  | JArr _ | JObj _ => true
  end.

(** ** Own properties *)

Fixpoint assoc (k : string) (fields : list (string * Data)) : option Data :=
  match fields with
  | [] => None
  | (k', v) :: rest => if String.eqb k k' then Some v else assoc k rest
  end.

(** The index a property name denotes, for an array or string of length
    [len]: the name must be the canonical decimal form of the index. *)
Definition index_of (k : string) (len : nat) : option nat :=
  List.find (fun i => String.eqb (pretty i) k) (seq 0 len).

(** [Object.prototype.hasOwnProperty], applied to a value. *)
Definition has_own (d : Data) (k : string) : bool :=
  match d with
  | JObj fields => bool_decide (is_Some (assoc k fields))
  | JArr xs => String.eqb k "length" || bool_decide (is_Some (index_of k (length xs)))
  | JStr s => String.eqb k "length" || bool_decide (is_Some (index_of k (String.length s)))
  | _ => false
  end.

(** A property read [d.k] for a name [k] that none of the built-in
    prototypes defines (the class reads [outcome], [payload], [body],
    [event] and [token]): the own property, else [undefined]; reading a
    property of [undefined] or [null] is a [TypeError]. *)
Definition get_prop (d : Data) (k : string) : Fault + Data :=
  match d with
  | JUndefined | JNull => inl TypeError
  | JObj fields => inr (default JUndefined (assoc k fields))
  | JArr xs =>
      if String.eqb k "length" then inr (JNum (Z.of_nat (length xs)))
      else inr (default JUndefined (i ← index_of k (length xs); xs !! i))
  | JStr s =>
      if String.eqb k "length" then inr (JNum (Z.of_nat (String.length s)))
      else inr (default JUndefined
                  (i ← index_of k (String.length s);
                   c ← String.get i s; Some (JStr (String c EmptyString))))
  | JBool _ | JNum _ => inr JUndefined
  end.

(** ** ToString *)

Fixpoint join (sep : string) (parts : list string) : string :=
  match parts with
  | [] => ""
  | [p] => p
  | p :: rest => p +:+ sep +:+ join sep rest
  end.

(** [ToString], as a template literal and a computed property key apply
    it.  An array is joined with commas, [undefined] and [null] elements
    printing as the empty string.  A plain object prints as
    ["[object Object]"]; when it has an own [toString] property (data,
    hence not callable) the conversion finds no usable method and is a
    [TypeError] ([None]). *)
Fixpoint to_string (d : Data) : option string :=
  match d with
  | JUndefined => Some "undefined"
  | JNull => Some "null"
  | JBool true => Some "true"
  | JBool false => Some "false"
  | JNum n => Some (pretty n)
  | JStr s => Some s
  | JArr xs =>
      let element (x : Data) : option string :=
        match x with
        | JUndefined | JNull => Some ""
        | _ => to_string x
        end in
      join "," <$> mapM element xs
  | JObj fields =>
      if bool_decide (is_Some (assoc "toString" fields)) then None
      else Some "[object Object]"
  end.

(** ** Effects and exceptions *)

(** What is applied: a function of the caller, or the no-op a
    destructuring default supplies. *)
Inductive Callee : Type :=
  | UserFn (id : nat)
  | DefaultNoop.

(** The options object handed to [request]. *)
Record Request : Type := mkRequest {
  method : string;
  uri : string;
  headers : list (string * string);
  auth_user : string;
  auth_pass : string;
  auth_sendImmediately : bool;
  formData : option Data
}.

(** The observable actions, in the order they happen. *)
Inductive Effect : Type :=
  | Called (f : Callee) (args : list Data)
  | Requested (r : Request)
  | Connected (url : string)
  | Sent (text : string).

(** A computation logs effects and ends with a value or a [Fault]. *)
Definition M (A : Type) : Type := list Effect * (Fault + A).

Definition ret {A} (a : A) : M A := ([], inr a).
Definition throw {A} (f : Fault) : M A := ([], inl f).
Definition emit (e : Effect) : M unit := ([e], inr tt).

Definition bind {A B} (m : M A) (k : A -> M B) : M B :=
  match m with
  | (log, inl f) => (log, inl f)
  | (log, inr a) => let '(log', r) := k a in (log ++ log', r)
  end.

Definition lift {A} (r : Fault + A) : M A := ([], r).

Definition effects {A} (m : M A) : list Effect := fst m.
Definition outcome_of {A} (m : M A) : Fault + A := snd m.

Declare Scope js_scope.
Delimit Scope js_scope with js.
Notation "'do' x <~ m ;;; k" := (bind m (fun x => k))
  (at level 10, x name, m at level 99, k at level 200) : js_scope.
Notation "m ;;; k" := (bind m (fun _ => k))
  (at level 100, k at level 200, right associativity) : js_scope.

(** Application of a function of the caller. *)
Definition invoke (h : Handler) (args : list Data) : M Data :=
  (emit (Called (UserFn (hid h)) args) ;;;
   match hrun h args with
   | Returns v => ret v
   | Throws v => throw (Thrown v)
   end)%js.

(** The applications of functions of the caller, read off a log. *)
Definition invocations (log : list Effect) : list (nat * list Data) :=
  omap (fun e => match e with
                 | Called (UserFn id) args => Some (id, args)
                 | _ => None
                 end) log.

End Js.

Module RapidAPI.
Import Js.

Section Class.

(** [JSON.parse] on a text: the parsed value, or [None] when it throws a
    [SyntaxError].  [JSON.stringify] on a value. *)
Variable JSON_parse : string -> option Data.
Variable JSON_stringify : Data -> string.

(** [JSON.parse] applies [ToString] to its argument first: a boolean or a
    number prints as a JSON text that parses back to itself, and
    ["undefined"] is no JSON text.  (The response handlers below call it
    on values whose [typeof] is not ["object"], or on the body of the
    token exchange.) *)
Definition JSON_parse_value (d : Data) : option Data :=
  match d with
  | JStr s => JSON_parse s
  | JUndefined => None
  | JBool b => Some (JBool b)
  | JNum n => Some (JNum n)
  | JNull => Some JNull
  | JArr _ | JObj _ => s ← to_string d; JSON_parse s
  end.

(** ** URL builders *)

Definition getBaseURL : string := "https://rapidapi.io/connect".

Definition blockURLBuilder (pack block : string) : string :=
  getBaseURL +:+ "/" +:+ pack +:+ "/" +:+ block.

Definition callbackBaseURL : string := "https://webhooks.rapidapi.io".

Definition websocketBaseURL : string := "ws://webhooks.rapidapi.io".

(** ** The instance: [constructor (project, key)] *)

Record Client : Type := mkClient {
  project : string;
  key : string
}.

(** ** [call]: the callback table *)

(** [__callbacks]: a plain object.  [own] holds its own properties;
    [proto] is [None] while its prototype is [Object.prototype] and
    [Some f] once an assignment to [__proto__] has replaced the prototype
    by the function [f]. *)
Record CallbackTable : Type := mkTable {
  own : gmap string Handler;
  proto : option Handler
}.

(** [let __callbacks = {}]. *)
Definition empty_table : CallbackTable := {| own := ∅; proto := None |}.

(** The object [r] that [call] returns, by its identity. *)
Definition Registrar : Type := nat.

Definition invalid_key_message : string :=
  "Invalid event key and callback. Event key should be a string and callback should be a function.".

(** [__callbacks[e] = cb], in strict mode.  The name [__proto__] is the
    accessor of [Object.prototype]: the assignment replaces the prototype
    and creates no own property.  An own property is overwritten.  A new
    name becomes an own property unless the replaced prototype holds it
    read-only, which is a [TypeError]. *)
Definition assign (t : CallbackTable) (e : string) (cb : Handler)
  : Fault + CallbackTable :=
  if String.eqb e "__proto__" then inr {| own := own t; proto := Some cb |}
  else if bool_decide (is_Some (own t !! e))
       then inr {| own := <[e := cb]> (own t); proto := proto t |}
       else match proto t with
            | Some f =>
                if hwritable f e
                then inr {| own := <[e := cb]> (own t); proto := proto t |}
                else inl TypeError
            | None => inr {| own := <[e := cb]> (own t); proto := proto t |}
            end.

Definition as_function (a : Arg) : option Handler :=
  match a with
  | AFun h => Some h
  | AData _ => None
  end.

Definition as_string (a : Arg) : option string :=
  match a with
  | AData (JStr s) => Some s
  | _ => None
  end.

(** [r.on(e, cb)]: the result, with the table after the call. *)
Definition on (r : Registrar) (e cb : Arg) (t : CallbackTable)
  : (Fault + Registrar) * CallbackTable :=
  match as_function cb, as_string e with
  | Some h, Some k =>
      match assign t k h with
      | inr t' => (inr r, t')
      | inl f => (inl f, t)
      end
  | _, _ => (inl (Thrown (JStr invalid_key_message)), t)
  end.

(** [__callbacks.hasOwnProperty(arg)]: the method is looked up on the
    table itself, so a handler stored under the name [hasOwnProperty] is
    what runs; otherwise the built-in tests the own properties for the
    key [ToString arg]. *)
Definition table_hasOwnProperty (t : CallbackTable) (arg : Data) : M bool :=
  match own t !! "hasOwnProperty" with
  | Some h => (do v <~ invoke h [arg] ;;; ret (truthy v))%js
  | None =>
      match to_string arg with
      | Some k => ret (bool_decide (is_Some (own t !! k)))
      | None => throw TypeError
      end
  end.

(** [__callbacks[keyv](arg)]. *)
Definition table_apply (t : CallbackTable) (keyv arg : Data) : M unit :=
  match to_string keyv with
  | None => throw TypeError
  | Some k =>
      match own t !! k with
      | Some h => (invoke h [arg] ;;; ret tt)%js
      | None =>
          if String.eqb k "__proto__" then
            match proto t with
            | Some f => (invoke f [arg] ;;; ret tt)%js
            | None => throw TypeError
            end
          else throw (Inherited k)
      end
  end.

(** [body.hasOwnProperty('outcome')]: the method is looked up on the body,
    where an own property of that name (data, not callable) hides the
    built-in. *)
Definition body_hasOwnProperty (body : Data) (k : string) : M bool :=
  match body with
  | JUndefined | JNull => throw TypeError
  | JObj fields =>
      if bool_decide (is_Some (assoc "hasOwnProperty" fields))
      then throw TypeError
      else ret (has_own body k)
  | _ => ret (has_own body k)
  end.

(** ** [call]: the response handler *)

(** The parameters [(error, response, body)] of the completion callback:
    [error] is [None] for [null] and [Some] for an error object,
    [response] is [None] for [undefined] and otherwise carries
    [statusCode]. *)
Definition parse_step (error : option string) (body : Data)
  : option string * Data :=
  if negb (String.eqb (typeof body) "object") then
    match JSON_parse_value body with
    | Some v => (error, v)
    | None => (Some "SyntaxError", body)
    end
  else (error, body).

(** [error || response.statusCode != 200 || !(body.hasOwnProperty('outcome'))] *)
Definition failed (error : option string) (response : option Z) (body : Data)
  : M bool :=
  match error with
  | Some _ => ret true
  | None =>
      match response with
      | None => throw TypeError
      | Some statusCode =>
          if negb (statusCode =? 200) then ret true
          else (do has <~ body_hasOwnProperty body "outcome" ;;; ret (negb has))%js
      end
  end.

Definition response_handler (t : CallbackTable)
    (error : option string) (response : option Z) (body : Data) : M unit :=
  let '(error, body) := parse_step error body in
  (do bad <~ failed error response body ;;;
   if bad then
     do has <~ table_hasOwnProperty t (JStr "error") ;;;
     if has then table_apply t (JStr "error") body else ret tt
   else
     do outcome <~ lift (get_prop body "outcome") ;;;
     do has <~ table_hasOwnProperty t outcome ;;;
     if has then
       do payload <~ lift (get_prop body "payload") ;;;
       table_apply t outcome payload
     else ret tt)%js.

(** ** [call] *)

(** [call (pack, block, args)]: the request is issued and the registrar
    [r], closed over a fresh empty table, is returned. *)
Definition call (c : Client) (pack block : string) (args : Data) (r : Registrar)
  : M (Registrar * CallbackTable) :=
  (emit (Requested {|
     method := "POST";
     uri := blockURLBuilder pack block;
     headers := [("User-Agent", "RapidAPIConnect_NodeJS");
                 ("Content-Type", "multipart/form-data")];
     auth_user := project c;
     auth_pass := key c;
     auth_sendImmediately := true;
     formData := Some (if truthy args then args else JObj []) |}) ;;;
   ret (r, empty_table))%js.

(** How the round trip of [request] ends: with an error, and then the
    callback receives the error alone ([response] and [body] are
    [undefined]); or with a response, and then [error] is [null]. *)
Inductive Completion : Type :=
  | TransportError (description : string)
  | Response (statusCode : Z) (body : Data).

Definition callback_args (c : Completion) : option string * option Z * Data :=
  match c with
  | TransportError description => (Some description, None, JUndefined)
  | Response statusCode body => (None, Some statusCode, body)
  end.

(** The response handler of [call], run on a completion, with the table as
    the registrations made before the completion left it. *)
Definition complete (t : CallbackTable) (c : Completion) : M unit :=
  let '(error, response, body) := callback_args c in
  response_handler t error response body.

(** A chain [r.on(e1, cb1).on(e2, cb2)...], from the empty table: the
    table it leaves, or the first exception. *)
Fixpoint register (r : Registrar) (regs : list (Arg * Arg)) (t : CallbackTable)
  : Fault + CallbackTable :=
  match regs with
  | [] => inr t
  | (e, cb) :: rest =>
      match on r e cb t with
      | (inr _, t') => register r rest t'
      | (inl f, _) => inl f
      end
  end.

(** ** [listen] *)

(** [const user_id = `${pack}.${event}_${this.project}:${this.key}`] *)
Definition user_id (c : Client) (pack event : string) : string :=
  pack +:+ "." +:+ event +:+ "_" +:+ project c +:+ ":" +:+ key c.

(** The two optional hooks of the [callbacks] object: a function, or
    [None] for a property that is absent or [undefined]. *)
Record Callbacks : Type := mkCallbacks {
  onMessage : option Handler;
  onClose : option Handler
}.

(** The fourth argument of [listen]: left out, [null], or an object. *)
Inductive CallbacksArg : Type :=
  | CbUndefined
  | CbNull
  | CbObject (cbs : Callbacks).

(** [const { onMessage = () => {}, onClose = () => {} } = callbacks]:
    destructuring [undefined] or [null] is a [TypeError]. *)
Definition destructure_callbacks (a : CallbacksArg) : M Callbacks :=
  match a with
  | CbUndefined | CbNull => throw TypeError
  | CbObject cbs => ret cbs
  end.

(** A hook after destructuring: the function given, else the default. *)
Definition apply_hook (f : option Handler) (args : list Data) : M unit :=
  match f with
  | Some h => (invoke h args ;;; ret tt)%js
  | None => emit (Called DefaultNoop args)
  end.

(** [JSON.stringify(params)] inside the template literal: [JSON.stringify]
    returns [undefined] for [undefined], which prints as such. *)
Definition stringify_params (params : Data) : string :=
  match params with
  | JUndefined => "undefined"
  | _ => JSON_stringify params
  end.

Definition token_request (c : Client) (pack event : string) (params : Data)
  : Request :=
  {| method := "GET";
     uri := callbackBaseURL +:+ "/api/get_token?user_id=" +:+ user_id c pack event
            +:+ "&params=" +:+ stringify_params params;
     headers := [("Content-Type", "application/json")];
     auth_user := project c;
     auth_pass := key c;
     auth_sendImmediately := true;
     formData := None |}.

(** What the closures of a [listen] call hold. *)
Record Subscription : Type := mkSubscription {
  sub_user_id : string;
  sub_callbacks : Callbacks
}.

(** [listen (pack, event, params, callbacks)], up to its return. *)
Definition listen (c : Client) (pack event : string) (params : Data)
    (callbacks : CallbacksArg) : M Subscription :=
  let uid := user_id c pack event in
  (do cbs <~ destructure_callbacks callbacks ;;;
   emit (Requested (token_request c pack event params)) ;;;
   ret {| sub_user_id := uid; sub_callbacks := cbs |})%js.

(** The completion callback of the token exchange, up to the creation of
    the socket: [error] and [response] are not looked at. *)
Definition token_handler (error : option string) (response : option Z)
    (body : Data) : M unit :=
  match JSON_parse_value body with
  | None => throw SyntaxError
  | Some v =>
      (do token <~ lift (get_prop v "token") ;;;
       match to_string token with
       | None => throw TypeError
       | Some tk =>
           emit (Connected (websocketBaseURL +:+ "/socket/websocket?token=" +:+ tk))
       end)%js
  end.

Definition token_complete (c : Completion) : M unit :=
  let '(error, response, body) := callback_args c in
  token_handler error response body.

(** [event.startsWith("phx_")]: only a string has the method. *)
Definition startsWith (event : Data) (p : string) : M bool :=
  match event with
  | JStr s => ret (String.prefix p s)
  | JUndefined | JNull | JBool _ | JNum _ | JArr _ | JObj _ => throw TypeError
  end.

(** [ws.onmessage]; [data] is [msg.data]. *)
Definition on_message (s : Subscription) (data : string) : M unit :=
  match JSON_parse data with
  | None => throw SyntaxError
  | Some v =>
      (do payload <~ lift (get_prop v "payload") ;;;
       do event <~ lift (get_prop v "event") ;;;
       do control <~ startsWith event "phx_" ;;;
       if negb control then
         do body <~ lift (get_prop payload "body") ;;;
         apply_hook (onMessage (sub_callbacks s)) [body]
       else ret tt)%js
  end.

(** [ws.onclose] *)
Definition on_close (s : Subscription) (code reason : Data) : M unit :=
  apply_hook (onClose (sub_callbacks s)) [code; reason].

(** The object that [ws.onopen] serializes and sends. *)
Definition join_frame (uid : string) : Data :=
  JObj [("topic", JStr ("users_socket:" +:+ uid));
        ("event", JStr "phx_join");
        ("payload", JObj []);
        ("ref", JStr "1")].

(** [ws.onopen] *)
Definition on_open (s : Subscription) : M unit :=
  emit (Sent (JSON_stringify (join_frame (sub_user_id s)))).

(** What the socket reports to its three hooks. *)
Inductive SocketEvent : Type :=
  | Open
  | Message (data : string)
  | Close (code reason : Data).

Definition socket_hook (s : Subscription) (ev : SocketEvent) : M unit :=
  match ev with
  | Open => on_open s
  | Message data => on_message s data
  | Close code reason => on_close s code reason
  end.

(** A session: the hooks run on the events in turn; an exception that
    leaves a hook is uncaught and ends the run. *)
Fixpoint session (s : Subscription) (evs : list SocketEvent) : M unit :=
  match evs with
  | [] => ret tt
  | ev :: rest => (socket_hook s ev ;;; session s rest)%js
  end.

(** The frames sent, read off a log. *)
Definition sent (log : list Effect) : list string :=
  omap (fun e => match e with Sent text => Some text | _ => None end) log.

(** The applications of a hook or handler, default included. *)
Definition calls (log : list Effect) : list (Callee * list Data) :=
  omap (fun e => match e with Called f args => Some (f, args) | _ => None end) log.

End Class.

(** ** Concrete hosts and callers for the examples *)

Definition quote : string := String "034"%char EmptyString.

(** A serializer that agrees with [JSON.stringify] on the values used in
    the examples: integers, strings that need no escaping, arrays and
    objects of such. *)
Fixpoint stringify_plain (d : Data) : string :=
  match d with
  | JUndefined | JNull => "null"
  | JBool true => "true"
  | JBool false => "false"
  | JNum n => pretty n
  | JStr s => quote +:+ s +:+ quote
  | JArr xs => "[" +:+ join "," (map stringify_plain xs) +:+ "]"
  | JObj fields =>
      "{" +:+ join "," (map (fun kv => quote +:+ fst kv +:+ quote +:+ ":"
                                      +:+ stringify_plain (snd kv)) fields)
      +:+ "}"
  end.

(** A parser that knows the texts of a finite corpus of values and
    rejects every other text. *)
Definition parse_corpus (corpus : list Data) (text : string) : option Data :=
  List.find (fun v => String.eqb (stringify_plain v) text) corpus.

Definition success_body : Data :=
  JObj [("outcome", JStr "success"); ("payload", JNum 1)].

Definition proto_body : Data :=
  JObj [("outcome", JStr "__proto__"); ("payload", JNum 1)].

Definition shadowed_body : Data :=
  JObj [("outcome", JStr "success"); ("payload", JNum 1); ("hasOwnProperty", JNum 0)].

Definition plain_body : Data := JObj [("message", JStr "quota")].

Definition reply_frame : Data :=
  JObj [("event", JStr "phx_reply"); ("payload", JObj [("body", JStr "x")])].

Definition alert_frame : Data :=
  JObj [("event", JStr "alert_fired"); ("payload", JObj [("body", JStr "x")])].

Definition token_body : Data := JObj [("token", JStr "abc")].

Definition corpus : list Data :=
  [success_body; proto_body; shadowed_body; plain_body; JNull;
   reply_frame; alert_frame; token_body; JObj []].

Definition sample_parse : string -> option Data := parse_corpus corpus.

(** An ordinary function object: [name] and [length] are read-only. *)
Definition fn_writable (k : string) : bool :=
  negb (String.eqb k "name" || String.eqb k "length").

(** A function that returns [v] whatever it is given. *)
Definition const_fn (id : nat) (v : Data) : Handler :=
  {| hid := id; hrun := fun _ => Returns v; hwritable := fn_writable |}.

Definition sample_client : Client := {| project := "p1"; key := "k1" |}.

Definition sample_subscription : Subscription :=
  {| sub_user_id := user_id sample_client "weather" "alert";
     sub_callbacks := {| onMessage := Some (const_fn 3 JUndefined); onClose := None |} |}.

(** The text of a corpus value, as the network delivers it. *)
Definition text_of (v : Data) : Data := JStr (stringify_plain v).

(** [r.on("hasOwnProperty", f).on("success", g)], [f] returning [true]. *)
Definition lookup_and_success : list (Arg * Arg) :=
  [(AData (JStr "hasOwnProperty"), AFun (const_fn 0 (JBool true)));
   (AData (JStr "success"), AFun (const_fn 1 JUndefined))].

(** [r.on("hasOwnProperty", f).on("error", g)], [f] returning [true]. *)
Definition lookup_and_error : list (Arg * Arg) :=
  [(AData (JStr "hasOwnProperty"), AFun (const_fn 0 (JBool true)));
   (AData (JStr "error"), AFun (const_fn 1 JUndefined))].

(** [r.on("error", g).on("success", h)]. *)
Definition error_and_success : list (Arg * Arg) :=
  [(AData (JStr "error"), AFun (const_fn 1 JUndefined));
   (AData (JStr "success"), AFun (const_fn 2 JUndefined))].

Definition error_and_success_table : CallbackTable :=
  {| own := <["success" := const_fn 2 JUndefined]>
              (<["error" := const_fn 1 JUndefined]> ∅);
     proto := None |}.

(** The table after [r.on("__proto__", f)]. *)
Definition proto_table : CallbackTable :=
  {| own := ∅; proto := Some (const_fn 0 JUndefined) |}.

(** ** Spec-side definitions *)

(** The body as the network delivered it. *)
Definition raw_body (c : Completion) : Data :=
  match c with
  | TransportError _ => JUndefined
  | Response _ body => body
  end.

(** Dispatch by name as the description of [call] words it: the handler
    stored under [k], if any, is applied to [arg]; otherwise nothing
    happens. *)
Definition dispatch_to (t : CallbackTable) (k : string) (arg : Data) : M unit :=
  match own t !! k with
  | Some h => (invoke h [arg] ;;; ret tt)%js
  | None => ret tt
  end.

Section Reading.

Variable JSON_parse : string -> option Data.

(** The body as structured data: the body itself when it already is an
    object, else what parsing it gives; [None] is a parse failure. *)
Definition parsed (body : Data) : option Data :=
  if negb (String.eqb (typeof body) "object") then JSON_parse_value JSON_parse body
  else Some body.

(** The body as the parse attempt leaves it: parsed when parsing
    succeeds, as received when it fails; [undefined] when the transport
    failed. *)
Definition delivered (c : Completion) : Data :=
  match c with
  | TransportError _ => JUndefined
  | Response _ body => default body (parsed body)
  end.

(** A parsed body on which the method call [body.hasOwnProperty(...)]
    reaches the built-in: neither [undefined] nor [null], and no own
    property named [hasOwnProperty]. *)
Definition plain (v : Data) : bool :=
  match v with
  | JUndefined | JNull => false
  | JObj fields => negb (bool_decide (is_Some (assoc "hasOwnProperty" fields)))
  | _ => true
  end.

(** The failed completions: a transport error, a status other than 200,
    a body that does not parse, a parsed body without [outcome]. *)
Inductive failure : Completion -> Prop :=
  | failure_transport description :
      failure (TransportError description)
  | failure_status statusCode body :
      statusCode ≠ 200 -> failure (Response statusCode body)
  | failure_parse statusCode body :
      parsed body = None -> failure (Response statusCode body)
  | failure_outcome statusCode body v :
      parsed body = Some v -> plain v = true -> has_own v "outcome" = false ->
      failure (Response statusCode body).

End Reading.

(** Percent-encoding of a query component: letters, digits and the marks
    [- _ . ! ~ * ( )] and the apostrophe stand for themselves, any other
    (ASCII) character is written [%XX]. *)
Definition hex_digit (n : N) : ascii :=
  match n with
  | 0%N => "0" | 1%N => "1" | 2%N => "2" | 3%N => "3" | 4%N => "4"
  | 5%N => "5" | 6%N => "6" | 7%N => "7" | 8%N => "8" | 9%N => "9"
  | 10%N => "A" | 11%N => "B" | 12%N => "C" | 13%N => "D" | 14%N => "E"
  | _ => "F"
  end%char.

Definition unreserved (c : ascii) : bool :=
  let n := N_of_ascii c in
  ((48 <=? n) && (n <=? 57) || (65 <=? n) && (n <=? 90)
   || (97 <=? n) && (n <=? 122))%N
  || bool_decide (c ∈ ["-"; "_"; "."; "!"; "~"; "*"; "'"; "("; ")"]%char).

Fixpoint percent_encode (s : string) : string :=
  match s with
  | EmptyString => EmptyString
  | String c rest =>
      if unreserved c then String c (percent_encode rest)
      else let n := N_of_ascii c in
           String "%" (String (hex_digit (n / 16)) (String (hex_digit (n mod 16))
             (percent_encode rest)))
  end.


(** The URI of the token exchange with [params] percent-encoded, as the
    description of the external interface has it. *)
Definition encoded_token_uri (stringify : Data -> string) (c : Client)
    (pack event : string) (params : Data) : string :=
  callbackBaseURL +:+ "/api/get_token?user_id=" +:+ user_id c pack event
  +:+ "&params=" +:+ percent_encode (stringify_params stringify params).

(** What a hook slot applies. *)
Definition callee_of (f : option Handler) : Callee :=
  match f with
  | Some h => UserFn (hid h)
  | None => DefaultNoop
  end.

(** ** [eventURLBuilder] *)

(** The value of [this] inside the static method: the class itself, with
    the static properties a program has put on it (the class declares
    none); an instance, handed over with [call] or [apply]; or
    [undefined], for the method taken off the class and called bare. *)
Inductive Receiver : Type :=
  | TheClass (statics : list (string * Data))
  | AnInstance (c : Client)
  | NoReceiver.

(** [this.k], for the names [project] and [key], which neither a function
    object nor the built-in prototypes define. *)
Definition receiver_prop (this : Receiver) (k : string) : Fault + Data :=
  match this with
  | TheClass statics => inr (default JUndefined (assoc k statics))
  | AnInstance c =>
      inr (if String.eqb k "project" then JStr (project c)
           else if String.eqb k "key" then JStr (key c)
           else JUndefined)
  | NoReceiver => inl TypeError
  end.

(** [static eventURLBuilder(pack, event)]:
    [`${RapidAPI.callbackBaseURL()}/${pack}/${event}/${this.project}/${this.key}`]. *)
Definition eventURLBuilder (this : Receiver) (pack event : string)
  : Fault + string :=
  match receiver_prop this "project" with
  | inl f => inl f
  | inr p =>
      match to_string p with
      | None => inl TypeError
      | Some ps =>
          match receiver_prop this "key" with
          | inl f => inl f
          | inr k =>
              match to_string k with
              | None => inl TypeError
              | Some ks =>
                  inr (callbackBaseURL +:+ "/" +:+ pack +:+ "/" +:+ event
                       +:+ "/" +:+ ps +:+ "/" +:+ ks)
              end
          end
      end
  end.

(** ** Further spec-side definitions *)

(** Whether the character occurs in the string. *)
Fixpoint has_char (c : ascii) (s : string) : bool :=
  match s with
  | EmptyString => false
  | String c' rest => Ascii.eqb c c' || has_char c rest
  end.

(** The handler that a chain of registrations leaves under the name [k]:
    a later registration takes precedence over an earlier one. *)
Fixpoint registered (regs : list (string * Handler)) (k : string)
  : option Handler :=
  match regs with
  | [] => None
  | (k', h) :: rest =>
      match registered rest k with
      | Some h' => Some h'
      | None => if String.eqb k' k then Some h else None
      end
  end.

(** The chain [r.on(k1, h1).on(k2, h2)...] as [register] takes it. *)
Definition chain (regs : list (string * Handler)) : list (Arg * Arg) :=
  map (fun kh => (AData (JStr (fst kh)), AFun (snd kh))) regs.

(** A function that returns whatever it is applied to. *)
Definition returns_always (h : Handler) : Prop :=
  forall args, exists v, hrun h args = Returns v.

Definition hook_returns (f : option Handler) : Prop :=
  match f with
  | Some h => returns_always h
  | None => True
  end.

Section Frames.

Variable JSON_parse : string -> option Data.

(** What an inbound frame carries for the application: [None] when it
    does not decode (the text does not parse, [event] is no string, or
    the body of an application frame cannot be read), [Some None] for a
    control frame, [Some (Some body)] for an application frame. *)
Definition decode_frame (data : string) : option (option Data) :=
  match JSON_parse data with
  | None => None
  | Some v =>
      match get_prop v "payload", get_prop v "event" with
      | inr payload, inr (JStr event) =>
          if String.prefix "phx_" event then Some None
          else match get_prop payload "body" with
               | inr body => Some (Some body)
               | inl _ => None
               end
      | _, _ => None
      end
  end.

(** The hook applications a socket event stands for. *)
Definition expected_calls (s : Subscription) (ev : SocketEvent)
  : list (Callee * list Data) :=
  match ev with
  | Open => []
  | Message data =>
      match decode_frame data with
      | Some (Some body) => [(callee_of (onMessage (sub_callbacks s)), [body])]
      | _ => []
      end
  | Close code reason => [(callee_of (onClose (sub_callbacks s)), [code; reason])]
  end.

Definition decodes (ev : SocketEvent) : Prop :=
  match ev with
  | Message data => is_Some (decode_frame data)
  | _ => True
  end.

End Frames.

(** Whether every character is a decimal digit. *)
Definition is_digit (c : ascii) : bool :=
  let n := N_of_ascii c in ((48 <=? n) && (n <=? 57))%N.

Fixpoint all_digits (s : string) : bool :=
  match s with
  | EmptyString => true
  | String c rest => is_digit c && all_digits rest
  end.

(** A parsed value that is neither an object nor [null] nor
    [undefined]: a boolean, a number, a string or an array. *)
Definition bare (v : Data) : bool :=
  match v with
  | JBool _ | JNum _ | JStr _ | JArr _ => true
  | JUndefined | JNull | JObj _ => false
  end.


(** [r.on("success", g1).on("error", g2).on("success", g3)]. *)
Definition success_twice : list (string * Handler) :=
  [("success", const_fn 1 JUndefined); ("error", const_fn 2 JUndefined);
   ("success", const_fn 3 JUndefined)].


(** An application frame without [payload], and a second parser that
    knows it. *)
Definition bodiless_frame : Data := JObj [("event", JStr "alert_fired")].

Definition frame_parse : string -> option Data :=
  parse_corpus [reply_frame; alert_frame; bodiless_frame; token_body; JObj []; JNull].

(** The frame sent on each opening, and nothing on another event. *)
Definition expected_frames (stringify : Data -> string) (s : Subscription)
    (ev : SocketEvent) : list string :=
  match ev with
  | Open => [stringify (join_frame (sub_user_id s))]
  | _ => []
  end.

(** Only applications of functions, no request, connection or frame. *)
Definition only_calls (log : list Effect) : Prop :=
  Forall (fun e => match e with Called _ _ => True | _ => False end) log.

(** Only applications of functions and frames sent. *)
Definition only_calls_and_frames (log : list Effect) : Prop :=
  Forall (fun e => match e with Called _ _ | Sent _ => True | _ => False end) log.

End RapidAPI.

(** * The effect monad *)

Module MonadLaws.
Import Js.

Lemma bind_ret_l {A B} (a : A) (k : A -> M B) : bind (ret a) k = k a.
Proof. unfold bind, ret. destruct (k a) as [log r]. reflexivity. Qed.

Lemma bind_ret_r {A} (m : M A) : bind m ret = m.
Proof.
  destruct m as [log [f | a]]; simpl; [reflexivity |].
  rewrite app_nil_r. reflexivity.
Qed.

Lemma bind_assoc {A B C} (m : M A) (k : A -> M B) (k' : B -> M C) :
  bind (bind m k) k' = bind m (fun a => bind (k a) k').
Proof.
  destruct m as [log [f | a]]; simpl; [reflexivity |].
  destruct (k a) as [log1 [f | b]]; simpl; [reflexivity |].
  destruct (k' b) as [log2 r]. rewrite app_assoc. reflexivity.
Qed.

Lemma bind_throw {A B} (f : Fault) (k : A -> M B) : bind (throw f) k = throw f.
Proof. reflexivity. Qed.

Lemma bind_lift_inr {A B} (a : A) (k : A -> M B) : bind (lift (inr a)) k = k a.
Proof. apply bind_ret_l. Qed.

Lemma bind_lift_inl {A B} (f : Fault) (k : A -> M B) :
  bind (lift (inl f)) k = throw f.
Proof. reflexivity. Qed.

(** An exception cuts the log short. *)
Lemma effects_bind {A B} (m : M A) (k : A -> M B) :
  effects (bind m k)
  = match outcome_of m with
    | inl _ => effects m
    | inr a => effects m ++ effects (k a)
    end.
Proof.
  destruct m as [log [f | a]]; simpl; [reflexivity |].
  destruct (k a); reflexivity.
Qed.

End MonadLaws.

Create Rewrite HintDb js.
#[export] Hint Rewrite @MonadLaws.bind_ret_l @MonadLaws.bind_lift_inr
  @MonadLaws.bind_throw @MonadLaws.bind_lift_inl : js.

(** One step of a handler body: the pending test is decided and the
    binds on values already known are taken. *)
Ltac js_step := cbv iota beta; autorewrite with js.

(** * Properties of [call] *)

Module CallSpec.
Import Js RapidAPI MonadLaws.

Section Dispatch.

Variable JSON_parse : string -> option Data.

(** With the built-in [hasOwnProperty] in place, the test and the
    application of the response handler amount to dispatch by name. *)
Lemma lookup_then_apply (t : CallbackTable) (keyv : Data) (k : string) (arg : Data) :
  own t !! "hasOwnProperty" = None ->
  to_string keyv = Some k ->
  (do has <~ table_hasOwnProperty t keyv ;;;
   if has then table_apply t keyv arg else ret tt)%js
  = dispatch_to t k arg.
Proof.
  intros Hbuiltin Hkey.
  unfold table_hasOwnProperty, table_apply, dispatch_to.
  rewrite Hbuiltin, Hkey, bind_ret_l.
  destruct (own t !! k) as [h|] eqn:Hk.
  - rewrite bool_decide_eq_true_2 by eauto. reflexivity.
  - rewrite bool_decide_eq_false_2 by (intros [? ?]; discriminate). reflexivity.
Qed.

Lemma invocations_dispatch_to (t : CallbackTable) (k : string) (arg : Data) :
  invocations (effects (dispatch_to t k arg))
  = match own t !! k with
    | Some h => [(hid h, [arg])]
    | None => []
    end.
Proof.
  unfold dispatch_to, invoke.
  destruct (own t !! k) as [h|]; [|reflexivity].
  destruct (hrun h [arg]); reflexivity.
Qed.

Lemma parse_step_parsed (error : option string) (body : Data) :
  parse_step JSON_parse error body
  = match parsed JSON_parse body with
    | Some v => (error, v)
    | None => (Some "SyntaxError", body)
    end.
Proof.
  unfold parse_step, parsed.
  destruct (negb (String.eqb (typeof body) "object")); reflexivity.
Qed.

Lemma body_hasOwnProperty_plain (v : Data) (k : string) :
  plain v = true -> body_hasOwnProperty v k = ret (has_own v k).
Proof.
  destruct v; simpl; try discriminate; try reflexivity.
  intros Hplain. apply negb_true_iff in Hplain. rewrite Hplain. reflexivity.
Qed.

(** A failed completion is dispatched to the name [error], with the body
    as the parse attempt left it. *)
Lemma complete_failure (t : CallbackTable) (c : Completion) :
  own t !! "hasOwnProperty" = None ->
  failure JSON_parse c ->
  complete JSON_parse t c = dispatch_to t "error" (delivered JSON_parse c).
Proof.
  intros Hbuiltin Hfail.
  pose proof (fun arg => lookup_then_apply t (JStr "error") "error" arg Hbuiltin eq_refl)
    as Hdispatch.
  destruct Hfail as [d | st body Hst | st body Hparse | st body v Hparse Hplain Hout];
    unfold complete, response_handler; simpl callback_args; cbv iota beta.
  - rewrite parse_step_parsed. change (parsed JSON_parse JUndefined) with (@None Data).
    unfold failed. rewrite bind_ret_l. apply Hdispatch.
  - rewrite parse_step_parsed. simpl delivered.
    destruct (parsed JSON_parse body) as [v|]; simpl default.
    + unfold failed. apply Z.eqb_neq in Hst. rewrite Hst. simpl negb.
      cbv iota. rewrite bind_ret_l. apply Hdispatch.
    + unfold failed. rewrite bind_ret_l. apply Hdispatch.
  - rewrite parse_step_parsed. simpl delivered. rewrite Hparse. simpl default.
    unfold failed. rewrite bind_ret_l. apply Hdispatch.
  - rewrite parse_step_parsed. simpl delivered. rewrite Hparse. simpl default.
    unfold failed. destruct (negb (st =? 200)).
    + rewrite bind_ret_l. apply Hdispatch.
    + rewrite (body_hasOwnProperty_plain v "outcome" Hplain), Hout.
      rewrite !bind_ret_l. simpl negb. cbv iota. apply Hdispatch.
Qed.


Lemma get_prop_defined (v : Data) (k : string) :
  v ≠ JUndefined -> v ≠ JNull -> exists x, get_prop v k = inr x.
Proof.
  intros Hu Hn. destruct v; simpl; try congruence; eauto;
    destruct (String.eqb k "length"); eauto.
Qed.

Lemma plain_defined (v : Data) : plain v = true -> v ≠ JUndefined /\ v ≠ JNull.
Proof. destruct v; simpl; intros; split; congruence. Qed.

Lemma body_hasOwnProperty_not_plain (v : Data) (k : string) :
  plain v = false -> body_hasOwnProperty v k = throw TypeError.
Proof.
  destruct v; simpl; try discriminate; try reflexivity.
  intros Hplain. apply negb_false_iff in Hplain. rewrite Hplain. reflexivity.
Qed.

(** With the built-in [hasOwnProperty] in place, the response handler
    either ends in an exception before any handler runs, or is one
    dispatch by name. *)
Lemma complete_shape (t : CallbackTable) (c : Completion) :
  own t !! "hasOwnProperty" = None ->
  (exists f, complete JSON_parse t c = throw f)
  \/ (exists k arg, complete JSON_parse t c = dispatch_to t k arg).
Proof.
  intros Hbuiltin.
  destruct c as [d | st body].
  { right. eexists _, _. apply complete_failure; [done | constructor]. }
  destruct (parsed JSON_parse body) as [v|] eqn:Hparse.
  2:{ right. eexists _, _. apply complete_failure; [done | by apply failure_parse]. }
  destruct (decide (st = 200)) as [-> | Hst].
  2:{ right. eexists _, _. apply complete_failure; [done | by apply failure_status]. }
  destruct (plain v) eqn:Hplain.
  2:{ left. exists TypeError.
      unfold complete, response_handler; simpl callback_args; cbv iota beta.
      rewrite parse_step_parsed, Hparse. unfold failed. simpl negb. cbv iota.
      rewrite (body_hasOwnProperty_not_plain v _ Hplain). reflexivity. }
  destruct (has_own v "outcome") eqn:Hown.
  2:{ right. eexists _, _. apply complete_failure; [done |].
      by apply failure_outcome with v. }
  destruct (plain_defined v Hplain) as [Hu Hn].
  destruct (get_prop_defined v "outcome" Hu Hn) as [o Ho].
  destruct (get_prop_defined v "payload" Hu Hn) as [p Hp].
  unfold complete, response_handler; simpl callback_args; cbv iota beta.
  rewrite parse_step_parsed, Hparse. unfold failed. simpl negb. cbv iota.
  rewrite (body_hasOwnProperty_plain v _ Hplain), Hown. js_step.
  simpl negb. rewrite Ho, Hp. js_step.
  destruct (to_string o) as [k|] eqn:Hkey.
  - right. exists k, p.
    rewrite <- (lookup_then_apply t o k p Hbuiltin Hkey).
    unfold table_hasOwnProperty. rewrite Hbuiltin, Hkey. js_step.
    destruct (bool_decide (is_Some (own t !! k))); [|reflexivity].
    js_step. reflexivity.
  - left. exists TypeError.
    unfold table_hasOwnProperty. rewrite Hbuiltin, Hkey. reflexivity.
Qed.

(** With the built-in [hasOwnProperty] in place, a completion applies at
    most one function of the caller, at most once. *)
Lemma complete_at_most_one (t : CallbackTable) (c : Completion) :
  own t !! "hasOwnProperty" = None ->
  (length (invocations (effects (complete JSON_parse t c))) <= 1)%nat.
Proof.
  intros Hbuiltin.
  destruct (complete_shape t c Hbuiltin) as [[f ->] | (k & arg & ->)].
  - simpl. lia.
  - rewrite invocations_dispatch_to. destruct (own t !! k); simpl; lia.
Qed.

(** C2, as amended.  On a table that stores no handler under the name
    [hasOwnProperty], a failed completion (transport error, status other
    than 200, body that does not parse, or parsed body that is neither
    [null] nor an object owning [hasOwnProperty] and that lacks [outcome])
    applies the handler stored under [error], if there is one, once, to
    the body as the parse attempt left it (the parsed value when parsing
    succeeded, the body as received when it failed, [undefined] after a
    transport error), and applies nothing else, whatever [outcome] the
    body names; without a handler under [error] nothing is applied and
    nothing is thrown. *)
Theorem failure_goes_to_error_handler (t : CallbackTable) (c : Completion) :
  own t !! "hasOwnProperty" = None ->
  failure JSON_parse c ->
  match own t !! "error" with
  | Some h =>
      invocations (effects (complete JSON_parse t c))
      = [(hid h, [delivered JSON_parse c])]
  | None => complete JSON_parse t c = ret tt
  end.
Proof.
  intros Hbuiltin Hfail.
  rewrite (complete_failure t c Hbuiltin Hfail).
  pose proof (invocations_dispatch_to t "error" (delivered JSON_parse c)) as Hinv.
  unfold dispatch_to in *.
  destruct (own t !! "error") as [h|]; [exact Hinv | reflexivity].
Qed.

End Dispatch.

(** The built-in [hasOwnProperty] is in place on a table that a chain of
    registrations under other names has filled. *)
Lemma error_and_success_registered :
  register 7%nat error_and_success empty_table = inr error_and_success_table.
Proof. reflexivity. Qed.

Lemma failure_goes_to_error_handler_witness :
  invocations (effects (complete sample_parse error_and_success_table
                          (Response 500 (text_of success_body))))
  = [(1%nat, [success_body])]
  /\ invocations (effects (complete sample_parse error_and_success_table
                             (Response 200 (text_of plain_body))))
     = [(1%nat, [plain_body])]
  /\ complete sample_parse empty_table (TransportError "ECONNREFUSED") = ret tt.
Proof.
  split; [|split].
  - apply (failure_goes_to_error_handler sample_parse error_and_success_table
             (Response 500 (text_of success_body))).
    + reflexivity.
    + apply failure_status. lia.
  - apply (failure_goes_to_error_handler sample_parse error_and_success_table
             (Response 200 (text_of plain_body))).
    + reflexivity.
    + apply failure_outcome with plain_body; reflexivity.
  - apply (failure_goes_to_error_handler sample_parse empty_table
             (TransportError "ECONNREFUSED")).
    + reflexivity.
    + apply failure_transport.
Defined.

(** C2, as stated, at a response with status 500 whose body parses: the
    handler under [error] does not receive the body as the network
    delivered it (a text); it receives the parsed object. *)
Lemma error_handler_gets_parsed_body :
  own error_and_success_table !! "error" = Some (const_fn 1 JUndefined)
  /\ invocations (effects (complete sample_parse error_and_success_table
                             (Response 500 (text_of success_body))))
     ≠ [(1%nat, [raw_body (Response 500 (text_of success_body))])].
Proof. split; [reflexivity | vm_compute; discriminate]. Qed.

(** C1, at [r.on("hasOwnProperty", f).on("success", g)] and a response
    with status 200 and body [{outcome: "success", payload: 1}]: the
    lookup [__callbacks.hasOwnProperty(body.outcome)] applies [f] to the
    outcome, and then [g] is applied to the payload.  A handler other than
    the one stored under the outcome name has run. *)
Theorem outcome_lookup_runs_stored_handler :
  exists t,
    register 7%nat lookup_and_success empty_table = inr t
    /\ invocations (effects (complete sample_parse t
                               (Response 200 (text_of success_body))))
       = [(0%nat, [JStr "success"]); (1%nat, [JNum 1])].
Proof. eexists. split; [reflexivity | vm_compute; reflexivity]. Qed.

(** C6, at [r.on("hasOwnProperty", f).on("error", g)] and a transport
    error: the lookup [__callbacks.hasOwnProperty('error')] applies [f],
    and then [g] is applied: two handlers for one completion. *)
Theorem failure_lookup_runs_two_handlers :
  exists t,
    register 7%nat lookup_and_error empty_table = inr t
    /\ invocations (effects (complete sample_parse t (TransportError "ECONNREFUSED")))
       = [(0%nat, [JStr "error"]); (1%nat, [JUndefined])].
Proof. eexists. split; [reflexivity | vm_compute; reflexivity]. Qed.

(** *** Registration *)

Lemma as_function_typeof (cb : Arg) :
  is_Some (as_function cb) <-> typeof_arg cb = "function".
Proof.
  destruct cb as [d | h]; simpl.
  - split; [intros [? ?]; discriminate | destruct d; discriminate].
  - split; eauto.
Qed.

Lemma as_string_typeof (e : Arg) :
  is_Some (as_string e) <-> typeof_arg e = "string".
Proof.
  destruct e as [d | h]; simpl.
  - destruct d; simpl; split; eauto; try discriminate; intros [? ?]; discriminate.
  - split; [intros [? ?]; discriminate | discriminate].
Qed.

(** An ill-typed registration throws the message and leaves the table as
    it was. *)
Lemma on_ill_typed (r : Registrar) (e cb : Arg) (t : CallbackTable) :
  typeof_arg cb ≠ "function" \/ typeof_arg e ≠ "string" ->
  on r e cb t = (inl (Thrown (JStr invalid_key_message)), t).
Proof.
  intros Hbad. unfold on.
  destruct (as_function cb) as [h|] eqn:Hcb; [|reflexivity].
  destruct (as_string e) as [k|] eqn:He; [|reflexivity].
  destruct Hbad as [Hbad | Hbad]; exfalso; apply Hbad.
  - apply as_function_typeof. eauto.
  - apply as_string_typeof. eauto.
Qed.

(** On a table whose prototype was not replaced, a well-typed
    registration under a name other than [__proto__] stores the handler
    as an own property, touches no other name, and returns [r]. *)
Lemma on_stores (r : Registrar) (k : string) (h : Handler) (t : CallbackTable) :
  k ≠ "__proto__" ->
  proto t = None ->
  exists t',
    on r (AData (JStr k)) (AFun h) t = (inr r, t')
    /\ own t' !! k = Some h
    /\ (forall k', k' ≠ k -> own t' !! k' = own t !! k')
    /\ proto t' = None.
Proof.
  intros Hk Hproto.
  exists {| own := <[k := h]> (own t); proto := proto t |}.
  repeat split.
  - unfold on, assign; simpl.
    apply String.eqb_neq in Hk. rewrite Hk, Hproto.
    destruct (bool_decide (is_Some (own t !! k))); reflexivity.
  - simpl. apply lookup_insert_eq.
  - intros k' Hne. simpl. apply lookup_insert_ne. congruence.
  - exact Hproto.
Qed.

(** A chain of well-typed registrations under names other than
    [__proto__] leaves the prototype alone, and leaves the built-in
    [hasOwnProperty] in place when none of the names is [hasOwnProperty]. *)
Lemma register_keeps_builtin (r : Registrar) (regs : list (string * Handler))
    (t : CallbackTable) :
  proto t = None ->
  own t !! "hasOwnProperty" = None ->
  Forall (fun kh => fst kh ≠ "__proto__" /\ fst kh ≠ "hasOwnProperty") regs ->
  exists t',
    register r (map (fun kh => (AData (JStr (fst kh)), AFun (snd kh))) regs) t = inr t'
    /\ proto t' = None
    /\ own t' !! "hasOwnProperty" = None.
Proof.
  intros Hproto Hbuiltin Hnames. revert t Hproto Hbuiltin.
  induction Hnames as [| [k h] regs [Hk1 Hk2] _ IH]; intros t Hproto Hbuiltin.
  - exists t. auto.
  - simpl in Hk1, Hk2.
    destruct (on_stores r k h t Hk1 Hproto) as (t1 & Hon & _ & Hother & Hproto1).
    destruct (IH t1 Hproto1) as (t' & Hreg & Hp & Hb).
    { rewrite Hother by congruence. exact Hbuiltin. }
    exists t'. simpl. rewrite Hon. auto.
Qed.

(** C5, at [r.on("__proto__", f).on("name", g)]: both registrations are
    well typed.  The first replaces the prototype of the table and stores
    nothing in it, so that a response whose outcome is [__proto__] finds
    no handler; the second then throws a [TypeError], stores nothing and
    returns no registrar, [name] being read-only on the function the
    table now inherits from. *)
Theorem on_proto_then_name :
  on 7%nat (AData (JStr "__proto__")) (AFun (const_fn 0 JUndefined)) empty_table
  = (inr 7%nat, proto_table)
  /\ own proto_table = ∅
  /\ complete sample_parse proto_table (Response 200 (text_of proto_body)) = ret tt
  /\ on 7%nat (AData (JStr "name")) (AFun (const_fn 1 JUndefined)) proto_table
     = (inl TypeError, proto_table).
Proof. repeat split; vm_compute; reflexivity. Qed.

(** A response whose body owns a property named [hasOwnProperty] ends in
    a [TypeError] before any lookup: the handler stored under its outcome
    is not applied. *)
Example body_shadowing_faults :
  complete sample_parse error_and_success_table (Response 200 (text_of shadowed_body))
  = throw TypeError.
Proof. vm_compute. reflexivity. Qed.

(** A response with status 200 whose body is [null] ends in a [TypeError]:
    the handler stored under [error] is not applied. *)
Example null_body_faults :
  complete sample_parse error_and_success_table (Response 200 (text_of JNull))
  = throw TypeError.
Proof. vm_compute. reflexivity. Qed.

End CallSpec.

(** * Properties of [listen] *)

Module ListenSpec.
Import Js RapidAPI MonadLaws.

Section Subscriber.

Variable JSON_parse : string -> option Data.
Variable JSON_stringify : Data -> string.

Lemma calls_apply_hook (f : option Handler) (args : list Data) :
  calls (effects (apply_hook f args)) = [(callee_of f, args)].
Proof.
  destruct f as [h|]; [|reflexivity].
  unfold apply_hook, invoke. simpl. destruct (hrun h args); reflexivity.
Qed.

(** C4.  The channel identity that [listen] computes is the pack, a
    period, the event, an underscore, the project, a colon and the key,
    and it is what the subscription holds; for ["weather"], ["alert"],
    ["p1"], ["k1"] it is ["weather.alert_p1:k1"]. *)
Theorem channel_identity (c : Client) (pack event : string) (params : Data)
    (cbs : Callbacks) :
  user_id c pack event
  = String.concat "" [pack; "."; event; "_"; project c; ":"; key c]
  /\ outcome_of (listen JSON_stringify c pack event params (CbObject cbs))
     = inr {| sub_user_id := user_id c pack event; sub_callbacks := cbs |}
  /\ user_id {| project := "p1"; key := "k1" |} "weather" "alert"
     = "weather.alert_p1:k1".
Proof. repeat split. Qed.

(** C10.  With the [callbacks] argument left out or [null], [listen]
    throws before it issues any request; with a [callbacks] object that
    names neither hook it issues the token request, and a hook left out
    is the no-op default. *)
Theorem listen_requires_callbacks (c : Client) (pack event : string) (params : Data) :
  listen JSON_stringify c pack event params CbUndefined = throw TypeError
  /\ listen JSON_stringify c pack event params CbNull = throw TypeError
  /\ effects (listen JSON_stringify c pack event params
                (CbObject {| onMessage := None; onClose := None |}))
     = [Requested (token_request JSON_stringify c pack event params)]
  /\ (forall args, apply_hook None args = emit (Called DefaultNoop args)).
Proof. repeat split. Qed.

(** C8, as amended.  The token exchange is a GET whose URI carries
    [user_id] equal to the channel identity and [params] equal to the
    JSON serialization of the [params] argument, placed in the query
    string as it is, with basic auth (project, key) and Content-Type
    application/json. *)
Theorem token_request_shape (c : Client) (pack event : string) (params : Data)
    (cbs : Callbacks) :
  effects (listen JSON_stringify c pack event params (CbObject cbs))
  = [Requested {|
       method := "GET";
       uri := callbackBaseURL +:+ "/api/get_token?user_id=" +:+ user_id c pack event
              +:+ "&params=" +:+ stringify_params JSON_stringify params;
       headers := [("Content-Type", "application/json")];
       auth_user := project c;
       auth_pass := key c;
       auth_sendImmediately := true;
       formData := None |}]
  /\ (forall fields,
        stringify_params JSON_stringify (JObj fields) = JSON_stringify (JObj fields)).
Proof. split; reflexivity. Qed.

(** C9.  When the token exchange ends with a transport error, or with a
    body that does not parse, the completion callback throws the parse
    error before anything else: no socket is opened, no hook is installed
    or applied.  The callback never looks at [error] or [response]. *)
Theorem token_failure_unhandled (c : Completion) :
  (exists description, c = TransportError description)
  \/ (exists statusCode body,
        c = Response statusCode body /\ JSON_parse_value JSON_parse body = None) ->
  token_complete JSON_parse c = throw SyntaxError
  /\ effects (token_complete JSON_parse c) = []
  /\ (forall error response error' response' body,
        token_handler JSON_parse error response body
        = token_handler JSON_parse error' response' body).
Proof.
  intros Hfail.
  assert (token_complete JSON_parse c = throw SyntaxError) as Heq.
  { destruct Hfail as [[d ->] | (st & body & -> & Hparse)].
    - reflexivity.
    - unfold token_complete, token_handler; simpl. rewrite Hparse. reflexivity. }
  rewrite Heq. repeat split.
Qed.

(** C3.  An inbound frame that parses to a value with a string [event]
    and a [payload]: when the event begins with [phx_] the hook returns
    with no effect at all; otherwise, [payload] being neither [undefined]
    nor [null], [onMessage] is applied once, to [payload.body] alone.  The
    frame [{event: "phx_reply", payload: {body: "x"}}] applies nothing and
    the frame [{event: "alert_fired", payload: {body: "x"}}] applies
    [onMessage] to ["x"]. *)
Theorem on_message_filters (s : Subscription) (data : string) (v : Data)
    (event : string) (payload : Data) :
  JSON_parse data = Some v ->
  get_prop v "event" = inr (JStr event) ->
  get_prop v "payload" = inr payload ->
  (if String.prefix "phx_" event
   then on_message JSON_parse s data = ret tt
   else forall body, get_prop payload "body" = inr body ->
        on_message JSON_parse s data = apply_hook (onMessage (sub_callbacks s)) [body]
        /\ calls (effects (on_message JSON_parse s data))
           = [(callee_of (onMessage (sub_callbacks s)), [body])])
  /\ (v = reply_frame -> calls (effects (on_message JSON_parse s data)) = [])
  /\ (v = alert_frame ->
      calls (effects (on_message JSON_parse s data))
      = [(callee_of (onMessage (sub_callbacks s)), [JStr "x"])]).
Proof.
  intros Hparse Hevent Hpayload.
  assert (forall body, get_prop payload "body" = inr body ->
            String.prefix "phx_" event = false ->
            on_message JSON_parse s data
            = apply_hook (onMessage (sub_callbacks s)) [body]) as Hforward.
  { intros body Hbody Hprefix. unfold on_message.
    rewrite Hparse, Hpayload, Hevent, !bind_lift_inr. unfold startsWith.
    rewrite bind_ret_l, Hprefix. simpl negb. cbv iota.
    rewrite Hbody, bind_lift_inr. reflexivity. }
  assert (String.prefix "phx_" event = true ->
          on_message JSON_parse s data = ret tt) as Hswallow.
  { intros Hprefix. unfold on_message.
    rewrite Hparse, Hpayload, Hevent, !bind_lift_inr. unfold startsWith.
    rewrite bind_ret_l, Hprefix. reflexivity. }
  split; [|split].
  - destruct (String.prefix "phx_" event) eqn:Hprefix; [auto |].
    intros body Hbody. rewrite (Hforward body Hbody eq_refl).
    split; [reflexivity | apply calls_apply_hook].
  - intros ->. injection Hevent as <-. rewrite Hswallow; reflexivity.
  - intros ->. injection Hevent as <-. injection Hpayload as <-.
    rewrite (Hforward (JStr "x")); [apply calls_apply_hook | reflexivity..].
Qed.

Lemma sent_app (l1 l2 : list Effect) : sent (l1 ++ l2) = sent l1 ++ sent l2.
Proof. unfold sent. apply omap_app. Qed.

Lemma sent_apply_hook (f : option Handler) (args : list Data) :
  sent (effects (apply_hook f args)) = [].
Proof.
  destruct f as [h|]; [|reflexivity].
  unfold apply_hook, invoke. simpl. destruct (hrun h args); reflexivity.
Qed.

(** Neither the message hook nor the close hook sends anything. *)
Lemma sent_on_message (s : Subscription) (data : string) :
  sent (effects (on_message JSON_parse s data)) = [].
Proof.
  unfold on_message.
  destruct (JSON_parse data) as [v|]; [|reflexivity].
  destruct (get_prop v "payload") as [f | payload]; [reflexivity |].
  destruct (get_prop v "event") as [f | event]; [reflexivity |].
  rewrite !bind_lift_inr.
  destruct event as [| | b | n | ev | xs | fields]; try reflexivity.
  unfold startsWith. rewrite bind_ret_l.
  destruct (String.prefix "phx_" ev); [reflexivity |]. simpl negb. cbv iota.
  destruct (get_prop payload "body") as [f | body]; [reflexivity |].
  rewrite bind_lift_inr. apply sent_apply_hook.
Qed.

Lemma session_cons (s : Subscription) (ev : SocketEvent) (rest : list SocketEvent) :
  session JSON_parse JSON_stringify s (ev :: rest)
  = bind (socket_hook JSON_parse JSON_stringify s ev)
         (fun _ => session JSON_parse JSON_stringify s rest).
Proof. reflexivity. Qed.

Lemma sent_session_no_open (s : Subscription) (evs : list SocketEvent) :
  Open ∉ evs ->
  sent (effects (session JSON_parse JSON_stringify s evs)) = [].
Proof.
  induction evs as [| ev rest IH]; intros Hopen; [reflexivity |].
  apply not_elem_of_cons in Hopen as [Hev Hrest].
  rewrite session_cons, effects_bind.
  assert (sent (effects (socket_hook JSON_parse JSON_stringify s ev)) = []) as Hhook.
  { destruct ev as [| data | code reason]; [congruence | apply sent_on_message |
      apply sent_apply_hook]. }
  destruct (outcome_of (socket_hook JSON_parse JSON_stringify s ev)); [exact Hhook |].
  rewrite sent_app, Hhook, (IH Hrest). reflexivity.
Qed.

(** C7.  In a session of the subscription that [listen] sets up, whose
    socket opens and reports no second opening, one frame is sent in all:
    the serialization of [{topic: "users_socket:" + the channel identity,
    event: "phx_join", payload: {}, ref: "1"}], sent by the open hook;
    a session whose socket does not open sends nothing. *)
Theorem join_sent_once (c : Client) (pack event : string) (params : Data)
    (cbs : Callbacks) (rest : list SocketEvent) :
  Open ∉ rest ->
  exists s,
    outcome_of (listen JSON_stringify c pack event params (CbObject cbs)) = inr s
    /\ on_open JSON_stringify s
       = emit (Sent (JSON_stringify
                      (JObj [("topic", JStr ("users_socket:" +:+ user_id c pack event));
                             ("event", JStr "phx_join");
                             ("payload", JObj []);
                             ("ref", JStr "1")])))
    /\ sent (effects (session JSON_parse JSON_stringify s (Open :: rest)))
       = [JSON_stringify (join_frame (user_id c pack event))]
    /\ sent (effects (session JSON_parse JSON_stringify s rest)) = [].
Proof.
  intros Hopen.
  exists {| sub_user_id := user_id c pack event; sub_callbacks := cbs |}.
  split; [reflexivity |]. split; [reflexivity |]. split.
  - rewrite session_cons, effects_bind. simpl outcome_of. cbv iota.
    rewrite sent_app, (sent_session_no_open _ rest Hopen). reflexivity.
  - apply sent_session_no_open. exact Hopen.
Qed.

End Subscriber.

Lemma on_message_filters_witness :
  calls (effects (on_message sample_parse sample_subscription (stringify_plain reply_frame)))
  = []
  /\ calls (effects (on_message sample_parse sample_subscription (stringify_plain alert_frame)))
     = [(UserFn 3, [JStr "x"])].
Proof.
  split.
  - apply (on_message_filters sample_parse sample_subscription
             (stringify_plain reply_frame) reply_frame "phx_reply"
             (JObj [("body", JStr "x")])); reflexivity.
  - apply (on_message_filters sample_parse sample_subscription
             (stringify_plain alert_frame) alert_frame "alert_fired"
             (JObj [("body", JStr "x")])); reflexivity.
Defined.

Lemma join_sent_once_witness :
  exists s,
    outcome_of (listen stringify_plain sample_client "weather" "alert" (JObj [])
                  (CbObject {| onMessage := None; onClose := None |})) = inr s
    /\ sent (effects (session sample_parse stringify_plain s
                        [Open; Message (stringify_plain reply_frame);
                         Message (stringify_plain alert_frame);
                         Close (JNum 1000) (JStr "normal")]))
       = [stringify_plain (join_frame "weather.alert_p1:k1")].
Proof.
  destruct (join_sent_once sample_parse stringify_plain sample_client "weather" "alert"
              (JObj []) {| onMessage := None; onClose := None |}
              [Message (stringify_plain reply_frame);
               Message (stringify_plain alert_frame);
               Close (JNum 1000) (JStr "normal")])
    as (s & Hs & _ & Hsent & _).
  - intros Hin. repeat (apply elem_of_cons in Hin as [Hin | Hin]; [discriminate |]).
    apply elem_of_nil in Hin. exact Hin.
  - exists s. split; [exact Hs | exact Hsent].
Defined.

Lemma token_failure_unhandled_witness :
  token_complete sample_parse (TransportError "ECONNREFUSED") = throw SyntaxError
  /\ token_complete sample_parse (Response 502 (JStr "<html>")) = throw SyntaxError.
Proof.
  split.
  - apply (token_failure_unhandled sample_parse (TransportError "ECONNREFUSED")).
    left. eexists. reflexivity.
  - apply (token_failure_unhandled sample_parse (Response 502 (JStr "<html>"))).
    right. eexists _, _. split; reflexivity.
Defined.

(** C8, as stated, at [params = {}]: the URI that [listen] hands to the
    transport ends in [{}], not in its percent-encoding [%7B%7D]. *)
Lemma params_not_percent_encoded :
  uri (token_request stringify_plain sample_client "weather" "alert" (JObj []))
  = "https://webhooks.rapidapi.io/api/get_token?user_id=weather.alert_p1:k1&params={}"
  /\ encoded_token_uri stringify_plain sample_client "weather" "alert" (JObj [])
     = "https://webhooks.rapidapi.io/api/get_token?user_id=weather.alert_p1:k1&params=%7B%7D"
  /\ uri (token_request stringify_plain sample_client "weather" "alert" (JObj []))
     ≠ encoded_token_uri stringify_plain sample_client "weather" "alert" (JObj []).
Proof. repeat split; vm_compute; try reflexivity; discriminate. Qed.

End ListenSpec.

(** * Properties of the URL builders and of the channel identity *)

Module UrlSpec.
Import Js RapidAPI.

Lemma append_inv_head (p a b : string) : p +:+ a = p +:+ b -> a = b.
Proof.
  induction p as [| c p IH]; simpl; intros Heq; [exact Heq |].
  injection Heq as Heq. auto.
Qed.

Lemma append_assoc (a b c : string) : (a +:+ b) +:+ c = a +:+ (b +:+ c).
Proof.
  induction a as [| x a IH]; [reflexivity |].
  change (String x ((a +:+ b) +:+ c) = String x (a +:+ (b +:+ c))).
  f_equal. exact IH.
Qed.

(** A separator that occurs in neither left part cuts in one way only. *)
Lemma split_unique (c : ascii) (a a' b b' : string) :
  has_char c a = false ->
  has_char c a' = false ->
  a +:+ String c b = a' +:+ String c b' ->
  a = a' /\ b = b'.
Proof.
  revert a'. induction a as [| x a IH]; intros [| x' a']; simpl; intros Ha Ha' Heq.
  - injection Heq as ->. auto.
  - injection Heq as <- _. rewrite Ascii.eqb_refl in Ha'. discriminate.
  - injection Heq as -> _. rewrite Ascii.eqb_refl in Ha. discriminate.
  - injection Heq as -> Heq.
    apply orb_false_iff in Ha as [_ Ha]. apply orb_false_iff in Ha' as [_ Ha'].
    destruct (IH a' Ha Ha' Heq) as [-> ->]. auto.
Qed.

(** X1.  Two block calls whose pack names hold no slash go to the same
    URL only when pack and block are the same. *)
Theorem block_url_injective (pack block pack' block' : string) :
  has_char "/" pack = false ->
  has_char "/" pack' = false ->
  blockURLBuilder pack block = blockURLBuilder pack' block' ->
  pack = pack' /\ block = block'.
Proof.
  intros Hp Hp' Heq. unfold blockURLBuilder in Heq.
  apply append_inv_head in Heq. simpl in Heq. injection Heq as Heq.
  exact (split_unique "/" pack pack' block block' Hp Hp' Heq).
Qed.

(** X2.  Two subscriptions whose pack names hold no period, whose event
    names hold no underscore and whose project names hold no colon have
    the same channel identity only when pack, event, project and key are
    all the same. *)
Theorem user_id_injective (c c' : Client) (pack event pack' event' : string) :
  has_char "." pack = false -> has_char "." pack' = false ->
  has_char "_" event = false -> has_char "_" event' = false ->
  has_char ":" (project c) = false -> has_char ":" (project c') = false ->
  user_id c pack event = user_id c' pack' event' ->
  pack = pack' /\ event = event' /\ c = c'.
Proof.
  intros Hp Hp' He He' Hc Hc' Heq. unfold user_id in Heq. simpl in Heq.
  destruct (split_unique "." _ _ _ _ Hp Hp' Heq) as [-> Heq1].
  destruct (split_unique "_" _ _ _ _ He He' Heq1) as [-> Heq2].
  destruct (split_unique ":" _ _ _ _ Hc Hc' Heq2) as [Hproject Hkey].
  destruct c, c'; simpl in *. subst. auto.
Qed.

(** X3.  The builders escape nothing: a slash moved from the pack name
    to the block name leaves the block URL as it is, and a period moved
    from the pack name to the event name leaves the channel identity as
    it is. *)
Theorem separators_not_escaped (c : Client) (p q rest : string) :
  blockURLBuilder (p +:+ "/" +:+ q) rest = blockURLBuilder p (q +:+ "/" +:+ rest)
  /\ user_id c (p +:+ "." +:+ q) rest = user_id c p (q +:+ "." +:+ rest).
Proof.
  unfold blockURLBuilder, user_id. split.
  - f_equal. f_equal. rewrite !append_assoc. reflexivity.
  - rewrite !append_assoc. reflexivity.
Qed.

(** X4.  The event URL is built from [this]: called on the class, which
    declares neither [project] nor [key], it ends in
    [/undefined/undefined] whatever instance exists; handed an instance it
    ends in the project and the key; called bare it throws. *)
Theorem event_url_receiver (c : Client) (pack event : string) :
  eventURLBuilder (TheClass []) pack event
  = inr (callbackBaseURL +:+ "/" +:+ pack +:+ "/" +:+ event +:+ "/undefined/undefined")
  /\ eventURLBuilder (AnInstance c) pack event
     = inr (callbackBaseURL +:+ "/" +:+ pack +:+ "/" +:+ event
            +:+ "/" +:+ project c +:+ "/" +:+ key c)
  /\ eventURLBuilder NoReceiver pack event = inl TypeError.
Proof. repeat split. Qed.

Lemma block_url_injective_witness :
  blockURLBuilder "NasaAPI" "getPictureOfTheDay" = blockURLBuilder "NasaAPI" "getPictureOfTheDay"
  /\ ("NasaAPI" = "NasaAPI" /\ "getPictureOfTheDay" = "getPictureOfTheDay").
Proof.
  split; [reflexivity |].
  apply (block_url_injective "NasaAPI" "getPictureOfTheDay" "NasaAPI" "getPictureOfTheDay");
    reflexivity.
Defined.

Lemma user_id_injective_witness :
  "weather" = "weather" /\ "alert" = "alert" /\ sample_client = sample_client.
Proof.
  apply (user_id_injective sample_client sample_client "weather" "alert" "weather" "alert");
    reflexivity.
Defined.

End UrlSpec.

(** * Further properties of [call] *)

Module CallMore.
Import Js RapidAPI MonadLaws CallSpec.

Lemma registered_none (regs : list (string * Handler)) (k : string) :
  Forall (fun kh => fst kh ≠ k) regs -> registered regs k = None.
Proof.
  induction 1 as [| [k' h] rest Hk _ IH]; [reflexivity |].
  simpl in *. rewrite IH. apply String.eqb_neq in Hk. rewrite Hk. reflexivity.
Qed.

(** A chain of registrations under names other than [__proto__] leaves
    under each name the handler registered last under it. *)
Lemma register_chain (r : Registrar) (regs : list (string * Handler))
    (t : CallbackTable) :
  proto t = None ->
  Forall (fun kh => fst kh ≠ "__proto__") regs ->
  exists t',
    register r (chain regs) t = inr t'
    /\ proto t' = None
    /\ forall k, own t' !! k = match registered regs k with
                               | Some h => Some h
                               | None => own t !! k
                               end.
Proof.
  intros Hproto Hnames. revert t Hproto.
  induction Hnames as [| [k0 h0] rest Hk0 _ IH]; intros t Hproto.
  - exists t. auto.
  - simpl in Hk0.
    destruct (on_stores r k0 h0 t Hk0 Hproto) as (t1 & Hon & Hself & Hother & Hproto1).
    destruct (IH t1 Hproto1) as (t' & Hreg & Hp & Hlookup).
    exists t'. split; [simpl; rewrite Hon; exact Hreg |]. split; [exact Hp |].
    intros k. rewrite Hlookup. simpl.
    destruct (registered rest k) as [h|]; [reflexivity |].
    destruct (String.eqb k0 k) eqn:Hk.
    + apply String.eqb_eq in Hk as <-. exact Hself.
    + apply String.eqb_neq in Hk. apply Hother. congruence.
Qed.

Lemma chain_names_weaken (regs : list (string * Handler)) :
  Forall (fun kh => fst kh ≠ "__proto__" /\ fst kh ≠ "hasOwnProperty") regs ->
  Forall (fun kh => fst kh ≠ "__proto__") regs
  /\ Forall (fun kh => fst kh ≠ "hasOwnProperty") regs.
Proof. intros H. split; eapply Forall_impl; eauto; simpl; tauto. Qed.

Section Completion.

Variable JSON_parse : string -> option Data.

(** X5.  [call] issues its request and hands back a registrar over an
    empty table; a completion that arrives before any registration
    applies no handler, whatever it carries. *)
Theorem unregistered_completion_silent (c : Client) (pack block : string)
    (args : Data) (r : Registrar) (done : Completion) :
  exists req t,
    call c pack block args r = ([Requested req], inr (r, t))
    /\ uri req = blockURLBuilder pack block
    /\ invocations (effects (complete JSON_parse t done)) = [].
Proof.
  eexists _, empty_table. split; [reflexivity |]. split; [reflexivity |].
  destruct (complete_shape JSON_parse empty_table done) as [[f ->] | (k & arg & ->)];
    [apply lookup_empty | reflexivity |].
  rewrite invocations_dispatch_to. simpl. rewrite lookup_empty. reflexivity.
Qed.


(** X7.  After a chain of registrations under names other than
    [__proto__] and [hasOwnProperty], no completion applies more than one
    handler. *)
Theorem chain_at_most_one (r : Registrar) (regs : list (string * Handler))
    (done : Completion) :
  Forall (fun kh => fst kh ≠ "__proto__" /\ fst kh ≠ "hasOwnProperty") regs ->
  exists t,
    register r (chain regs) empty_table = inr t
    /\ (length (invocations (effects (complete JSON_parse t done))) <= 1)%nat.
Proof.
  intros Hnames.
  destruct (chain_names_weaken regs Hnames) as [Hproto Hbuiltin].
  destruct (register_chain r regs empty_table eq_refl Hproto) as (t & Hreg & _ & Hlookup).
  exists t. split; [exact Hreg |].
  apply complete_at_most_one.
  rewrite Hlookup, (registered_none regs _ Hbuiltin). apply lookup_empty.
Qed.


(** X9.  A body that arrives as an object, an array or [null] is not
    handed to the parser: the response handler does the same whatever
    [JSON.parse] would make of it. *)
Theorem structured_body_not_parsed (JSON_parse' : string -> option Data)
    (t : CallbackTable) (statusCode : Z) (body : Data) :
  typeof body = "object" ->
  complete JSON_parse t (Response statusCode body)
  = complete JSON_parse' t (Response statusCode body).
Proof.
  intros Htype. unfold complete, response_handler, parse_step. simpl callback_args.
  cbv iota beta. rewrite Htype. reflexivity.
Qed.

End Completion.
End CallMore.

(** * What the response handler and the registrar leave alone *)

Module CallFrame.
Import Js RapidAPI MonadLaws CallSpec.

Lemma only_calls_bind {A B} (m : M A) (k : A -> M B) :
  only_calls (effects m) ->
  (forall a, only_calls (effects (k a))) ->
  only_calls (effects (bind m k)).
Proof.
  intros Hm Hk. rewrite effects_bind.
  destruct (outcome_of m) as [f | a]; [exact Hm |].
  apply Forall_app. split; [exact Hm | apply Hk].
Qed.

Lemma only_calls_nil : only_calls [].
Proof. constructor. Qed.

Lemma only_calls_invoke (h : Handler) (args : list Data) :
  only_calls (effects (invoke h args)).
Proof.
  unfold invoke. apply only_calls_bind.
  - repeat constructor.
  - intros _. destruct (hrun h args); apply only_calls_nil.
Qed.

Lemma only_calls_lift {A} (r : Fault + A) : only_calls (effects (lift r)).
Proof. apply only_calls_nil. Qed.

Lemma only_calls_table_hasOwnProperty (t : CallbackTable) (arg : Data) :
  only_calls (effects (table_hasOwnProperty t arg)).
Proof.
  unfold table_hasOwnProperty. destruct (own t !! "hasOwnProperty") as [h|].
  - apply only_calls_bind; [apply only_calls_invoke | intros; apply only_calls_nil].
  - destruct (to_string arg); apply only_calls_nil.
Qed.

Lemma only_calls_table_apply (t : CallbackTable) (keyv arg : Data) :
  only_calls (effects (table_apply t keyv arg)).
Proof.
  unfold table_apply. destruct (to_string keyv) as [k|]; [|apply only_calls_nil].
  destruct (own t !! k) as [h|].
  - apply only_calls_bind; [apply only_calls_invoke | intros; apply only_calls_nil].
  - destruct (String.eqb k "__proto__"); [|apply only_calls_nil].
    destruct (proto t) as [f|]; [|apply only_calls_nil].
    apply only_calls_bind; [apply only_calls_invoke | intros; apply only_calls_nil].
Qed.

Lemma only_calls_body_hasOwnProperty (body : Data) (k : string) :
  only_calls (effects (body_hasOwnProperty body k)).
Proof.
  destruct body; simpl; try apply only_calls_nil.
  destruct (bool_decide _); apply only_calls_nil.
Qed.

Lemma only_calls_failed (error : option string) (response : option Z) (body : Data) :
  only_calls (effects (failed error response body)).
Proof.
  unfold failed. destruct error; [apply only_calls_nil |].
  destruct response as [st|]; [|apply only_calls_nil].
  destruct (negb (st =? 200)); [apply only_calls_nil |].
  apply only_calls_bind; [apply only_calls_body_hasOwnProperty |].
  intros; apply only_calls_nil.
Qed.

Section Handler.

Variable JSON_parse : string -> option Data.

(** X10.  Whatever the table holds and whatever the completion carries,
    the response handler does nothing but apply functions of the caller:
    it issues no request, opens no connection and sends no frame (so
    there is no retry). *)
Theorem response_handler_only_calls (t : CallbackTable) (done : Completion) :
  only_calls (effects (complete JSON_parse t done)).
Proof.
  unfold complete. destruct (callback_args done) as [[error response] body].
  unfold response_handler.
  destruct (parse_step JSON_parse error body) as [error' body'].
  apply only_calls_bind; [apply only_calls_failed |].
  intros [|].
  - apply only_calls_bind; [apply only_calls_table_hasOwnProperty |].
    intros [|]; [apply only_calls_table_apply | apply only_calls_nil].
  - apply only_calls_bind; [apply only_calls_lift |]. intros outcome.
    apply only_calls_bind; [apply only_calls_table_hasOwnProperty |].
    intros [|]; [|apply only_calls_nil].
    apply only_calls_bind; [apply only_calls_lift |]. intros payload.
    apply only_calls_table_apply.
Qed.

End Handler.

(** X11.  On a table whose prototype was not replaced, registering a
    second handler under a name (other than [__proto__]) replaces the
    first: the table is the same as if only the second had been
    registered. *)
Theorem registration_overwrites (r : Registrar) (k : string) (h1 h2 : Handler)
    (t : CallbackTable) :
  k ≠ "__proto__" ->
  proto t = None ->
  register r (chain [(k, h1); (k, h2)]) t = register r (chain [(k, h2)]) t.
Proof.
  intros Hk Hproto.
  destruct (on_stores r k h1 t Hk Hproto) as (t1 & Hon1 & _ & _ & Hproto1).
  unfold chain. simpl. rewrite Hon1.
  unfold on, assign in *. simpl in *.
  apply String.eqb_neq in Hk. rewrite Hk in *. rewrite Hproto, Hproto1 in *.
  assert (t1 = {| own := <[k := h1]> (own t); proto := None |}) as ->.
  { destruct (bool_decide (is_Some (own t !! k))); congruence. }
  simpl. rewrite insert_insert_eq.
  destruct (bool_decide _), (bool_decide _); reflexivity.
Qed.

(** X12.  On a table whose prototype was not replaced, registrations
    under two different names (neither [__proto__]) give the same table
    in either order. *)
Theorem registrations_commute (r : Registrar) (k1 k2 : string) (h1 h2 : Handler)
    (t : CallbackTable) :
  k1 ≠ k2 ->
  k1 ≠ "__proto__" ->
  k2 ≠ "__proto__" ->
  proto t = None ->
  register r (chain [(k1, h1); (k2, h2)]) t = register r (chain [(k2, h2); (k1, h1)]) t.
Proof.
  intros Hne Hk1 Hk2 Hproto.
  assert (forall k h t0, k ≠ "__proto__" -> proto t0 = None ->
            on r (AData (JStr k)) (AFun h) t0
            = (inr r, {| own := <[k := h]> (own t0); proto := None |})) as Hon.
  { intros k h t0 Hk Hp. unfold on, assign. simpl.
    apply String.eqb_neq in Hk. rewrite Hk, Hp.
    destruct (bool_decide _); reflexivity. }
  unfold chain. simpl.
  rewrite (Hon k1 h1 t Hk1 Hproto), (Hon k2 h2 t Hk2 Hproto).
  rewrite !Hon by done. simpl.
  rewrite (insert_insert_ne (own t) k1 k2) by done. reflexivity.
Qed.

Lemma registration_overwrites_witness :
  register 7%nat (chain [("success", const_fn 1 JUndefined);
                         ("success", const_fn 2 JUndefined)]) empty_table
  = register 7%nat (chain [("success", const_fn 2 JUndefined)]) empty_table.
Proof.
  apply (registration_overwrites 7%nat "success" (const_fn 1 JUndefined)
           (const_fn 2 JUndefined) empty_table); [discriminate | reflexivity].
Defined.

Lemma registrations_commute_witness :
  register 7%nat (chain [("success", const_fn 1 JUndefined);
                         ("error", const_fn 2 JUndefined)]) empty_table
  = register 7%nat (chain [("error", const_fn 2 JUndefined);
                           ("success", const_fn 1 JUndefined)]) empty_table.
Proof.
  apply (registrations_commute 7%nat "success" "error" (const_fn 1 JUndefined)
           (const_fn 2 JUndefined) empty_table); [discriminate.. | reflexivity].
Defined.

End CallFrame.

(** * Property names that are no index *)

Module KeyFacts.
Import Js RapidAPI.

Lemma is_digit_pretty_N_char (x : N) : is_digit (pretty_N_char x) = true.
Proof. unfold pretty_N_char. repeat case_match; reflexivity. Qed.

Lemma all_digits_pretty_N_go (x : N) (s : string) :
  all_digits s = true -> all_digits (pretty_N_go x s) = true.
Proof.
  revert s. induction (N.lt_wf_0 x) as [x _ IH]; intros s Hs.
  assert (x = 0 \/ 0 < x)%N as [-> | Hpos] by lia.
  - rewrite pretty_N_go_0. exact Hs.
  - rewrite pretty_N_go_step by exact Hpos. apply IH.
    + apply N.div_lt; [exact Hpos | reflexivity].
    + simpl. rewrite is_digit_pretty_N_char. exact Hs.
Qed.

(** The decimal form of an index holds digits only. *)
Lemma all_digits_pretty_nat (i : nat) : all_digits (pretty i) = true.
Proof.
  unfold pretty, pretty_nat, pretty, pretty_N.
  destruct (decide (N.of_nat i = 0%N)); [reflexivity |].
  apply all_digits_pretty_N_go. reflexivity.
Qed.

Lemma find_none {A} (f : A -> bool) (l : list A) :
  (forall x, f x = false) -> List.find f l = None.
Proof. intros Hf. induction l as [| x l IH]; simpl; [reflexivity | by rewrite Hf]. Qed.

(** A name with a character other than a digit denotes no index. *)
Lemma index_of_name (k : string) (len : nat) :
  all_digits k = false -> index_of k len = None.
Proof.
  intros Hk. unfold index_of. apply find_none. intros i.
  apply String.eqb_neq. intros Heq. rewrite <- Heq, all_digits_pretty_nat in Hk.
  discriminate.
Qed.

(** A boolean, a number, a string or an array owns no property with such
    a name (other than [length]), and reading one gives [undefined]. *)
Lemma bare_has_own (v : Data) (k : string) :
  bare v = true -> all_digits k = false -> k ≠ "length" ->
  has_own v k = false /\ get_prop v k = inr JUndefined.
Proof.
  intros Hv Hk Hlen. apply String.eqb_neq in Hlen.
  destruct v; try discriminate; simpl; rewrite ?Hlen, ?(index_of_name k _ Hk);
    simpl; auto.
Qed.

End KeyFacts.

(** * Edge cases of the response handler *)

Module CallEdge.
Import Js RapidAPI MonadLaws CallSpec KeyFacts.

Section Bare.

Variable JSON_parse : string -> option Data.

(** X13.  A response with status 200 whose body parses to a boolean, a
    number, a string or an array has no [outcome]: on a table with no
    handler under [hasOwnProperty], the handler under [error], if any, is
    applied once to the parsed value, and without one nothing happens. *)
Theorem bare_body_goes_to_error (t : CallbackTable) (body v : Data) :
  own t !! "hasOwnProperty" = None ->
  parsed JSON_parse body = Some v ->
  bare v = true ->
  match own t !! "error" with
  | Some h =>
      invocations (effects (complete JSON_parse t (Response 200 body)))
      = [(hid h, [v])]
  | None => complete JSON_parse t (Response 200 body) = ret tt
  end.
Proof.
  intros Hb Hparse Hbare.
  assert (failure JSON_parse (Response 200 body)) as Hfail.
  { apply failure_outcome with v; [exact Hparse | by destruct v |].
    apply (bare_has_own v "outcome" Hbare); [reflexivity | discriminate]. }
  rewrite (complete_failure JSON_parse t _ Hb Hfail).
  simpl delivered. rewrite Hparse. simpl default.
  pose proof (invocations_dispatch_to t "error" v) as Hinv.
  unfold dispatch_to in *.
  destruct (own t !! "error"); [exact Hinv | reflexivity].
Qed.

End Bare.

Lemma bare_body_goes_to_error_witness :
  invocations (effects (complete sample_parse error_and_success_table
                          (Response 200 (JArr [JNum 1; JNum 2]))))
  = [(1%nat, [JArr [JNum 1; JNum 2]])]
  /\ invocations (effects (complete sample_parse error_and_success_table
                             (Response 200 (JNum 5))))
     = [(1%nat, [JNum 5])].
Proof.
  split.
  - apply (bare_body_goes_to_error sample_parse error_and_success_table
             (JArr [JNum 1; JNum 2]) (JArr [JNum 1; JNum 2])); reflexivity.
  - apply (bare_body_goes_to_error sample_parse error_and_success_table
             (JNum 5) (JNum 5)); reflexivity.
Defined.


Lemma chain_at_most_one_witness :
  exists t,
    register 7%nat (chain success_twice) empty_table = inr t
    /\ (length (invocations (effects (complete sample_parse t
                                        (Response 404 (text_of plain_body))))) <= 1)%nat.
Proof.
  apply (CallMore.chain_at_most_one sample_parse 7%nat success_twice
           (Response 404 (text_of plain_body))).
  repeat constructor; discriminate.
Defined.


Lemma structured_body_not_parsed_witness :
  complete sample_parse error_and_success_table (Response 200 success_body)
  = complete (fun _ => None) error_and_success_table (Response 200 success_body).
Proof.
  apply (CallMore.structured_body_not_parsed sample_parse (fun _ => None)
           error_and_success_table 200 success_body).
  reflexivity.
Defined.

End CallEdge.

(** * Further properties of [listen] *)

Module ListenMore.
Import Js RapidAPI MonadLaws KeyFacts.

Lemma outcome_bind {A B} (m : M A) (k : A -> M B) (a : A) :
  outcome_of m = inr a ->
  outcome_of (bind m k) = outcome_of (k a)
  /\ effects (bind m k) = effects m ++ effects (k a).
Proof.
  destruct m as [log [f | a']]; simpl; intros Heq; [discriminate |].
  injection Heq as ->. destruct (k a); auto.
Qed.

Lemma calls_app (l1 l2 : list Effect) : calls (l1 ++ l2) = calls l1 ++ calls l2.
Proof. unfold calls. apply omap_app. Qed.

Lemma apply_hook_returns (f : option Handler) (args : list Data) :
  hook_returns f -> outcome_of (apply_hook f args) = inr tt.
Proof.
  destruct f as [h|]; simpl; [|reflexivity].
  intros Hh. destruct (Hh args) as [v Hv]. unfold invoke. simpl. rewrite Hv. reflexivity.
Qed.

Section Subscriber.

Variable JSON_parse : string -> option Data.
Variable JSON_stringify : Data -> string.


(** The message hook against the decoding of the frame. *)
Lemma on_message_decodes (s : Subscription) (data : string) :
  match decode_frame JSON_parse data with
  | None =>
      effects (on_message JSON_parse s data) = []
      /\ (outcome_of (on_message JSON_parse s data) = inl SyntaxError
          \/ outcome_of (on_message JSON_parse s data) = inl TypeError)
  | Some None => on_message JSON_parse s data = ret tt
  | Some (Some body) =>
      on_message JSON_parse s data = apply_hook (onMessage (sub_callbacks s)) [body]
  end.
Proof.
  unfold decode_frame, on_message.
  destruct (JSON_parse data) as [v|]; [|auto].
  destruct (get_prop v "payload") as [f | payload] eqn:Hpayload.
  { destruct v; try discriminate; injection Hpayload as <-; auto. }
  rewrite bind_lift_inr.
  destruct (get_prop v "event") as [f | event] eqn:Hevent.
  { destruct v; try discriminate; injection Hevent as <-; auto. }
  rewrite bind_lift_inr.
  destruct event as [| | b | n | ev | xs | fields]; simpl startsWith; auto.
  rewrite bind_ret_l.
  destruct (String.prefix "phx_" ev); simpl negb; cbv iota; [reflexivity |].
  destruct (get_prop payload "body") as [f | body] eqn:Hbody.
  - destruct payload; try discriminate; injection Hbody as <-; auto.
  - rewrite bind_lift_inr. reflexivity.
Qed.

(** X15.  A frame that does not decode (its text does not parse, its
    [event] is no string, or it is an application frame whose [payload]
    is missing or [null]) makes the message hook throw a [SyntaxError] or
    a [TypeError] without any effect: no hook of the caller is applied
    and nothing is sent. *)
Theorem undecodable_frame_faults (s : Subscription) (data : string) :
  decode_frame JSON_parse data = None ->
  effects (on_message JSON_parse s data) = []
  /\ (outcome_of (on_message JSON_parse s data) = inl SyntaxError
      \/ outcome_of (on_message JSON_parse s data) = inl TypeError).
Proof.
  intros Hdecode. pose proof (on_message_decodes s data) as H.
  rewrite Hdecode in H. exact H.
Qed.

Lemma socket_hook_decodes (s : Subscription) (ev : SocketEvent) :
  hook_returns (onMessage (sub_callbacks s)) ->
  hook_returns (onClose (sub_callbacks s)) ->
  decodes JSON_parse ev ->
  outcome_of (socket_hook JSON_parse JSON_stringify s ev) = inr tt
  /\ calls (effects (socket_hook JSON_parse JSON_stringify s ev))
     = expected_calls JSON_parse s ev
  /\ sent (effects (socket_hook JSON_parse JSON_stringify s ev))
     = expected_frames JSON_stringify s ev.
Proof.
  intros Hmsg Hclose Hdec.
  destruct ev as [| data | code reason]; simpl socket_hook.
  - auto.
  - simpl in Hdec. destruct Hdec as [d Hd].
    pose proof (on_message_decodes s data) as H. simpl expected_calls.
    rewrite Hd in *. destruct d as [body|]; rewrite H.
    + split; [by apply apply_hook_returns |].
      split; [apply ListenSpec.calls_apply_hook | apply ListenSpec.sent_apply_hook].
    + auto.
  - split; [by apply apply_hook_returns |].
    split; [apply ListenSpec.calls_apply_hook | apply ListenSpec.sent_apply_hook].
Qed.

(** X16.  In a session whose frames all decode and whose hooks return,
    every event is handled: the hooks are applied in the order of the
    events, [onMessage] once to the body of each application frame and
    never for a control frame, [onClose] once to the code and reason of
    each close; the join frame is sent once per opening, and nothing else
    is sent. *)
Theorem session_delivers_in_order (s : Subscription) (evs : list SocketEvent) :
  hook_returns (onMessage (sub_callbacks s)) ->
  hook_returns (onClose (sub_callbacks s)) ->
  Forall (decodes JSON_parse) evs ->
  outcome_of (session JSON_parse JSON_stringify s evs) = inr tt
  /\ calls (effects (session JSON_parse JSON_stringify s evs))
     = flat_map (expected_calls JSON_parse s) evs
  /\ sent (effects (session JSON_parse JSON_stringify s evs))
     = flat_map (expected_frames JSON_stringify s) evs.
Proof.
  intros Hmsg Hclose Hdec.
  induction Hdec as [| ev rest Hev _ IH]; [auto |].
  destruct IH as (IHout & IHcalls & IHsent).
  destruct (socket_hook_decodes s ev Hmsg Hclose Hev) as (Hout & Hcalls & Hsent).
  rewrite ListenSpec.session_cons.
  destruct (outcome_bind _ (fun _ => session JSON_parse JSON_stringify s rest) tt Hout)
    as [-> ->].
  rewrite calls_app, ListenSpec.sent_app, Hcalls, Hsent, IHcalls, IHsent.
  auto.
Qed.

(** X17.  A session does nothing but apply the hooks and send frames: no
    hook of the socket issues a request or opens a connection (so there
    is no reconnection), whatever the events are. *)
Theorem session_only_calls_and_frames (s : Subscription) (evs : list SocketEvent) :
  only_calls_and_frames (effects (session JSON_parse JSON_stringify s evs)).
Proof.
  assert (forall f args, only_calls_and_frames (effects (apply_hook f args))) as Hhook.
  { intros [h|] args; [|repeat constructor].
    unfold apply_hook, invoke. simpl. destruct (hrun h args); repeat constructor. }
  induction evs as [| ev rest IH]; [constructor |].
  rewrite ListenSpec.session_cons, effects_bind.
  assert (only_calls_and_frames (effects (socket_hook JSON_parse JSON_stringify s ev)))
    as Hev.
  { destruct ev as [| data | code reason]; simpl socket_hook.
    - repeat constructor.
    - pose proof (on_message_decodes s data) as H.
      destruct (decode_frame JSON_parse data) as [[body|]|].
      + rewrite H. apply Hhook.
      + rewrite H. constructor.
      + destruct H as [-> _]. constructor.
    - apply Hhook. }
  destruct (outcome_of _); [exact Hev |].
  apply Forall_app. split; [exact Hev | exact IH].
Qed.

End Subscriber.
End ListenMore.

Module ListenExamples.
Import Js RapidAPI ListenMore.


Lemma undecodable_frame_faults_witness :
  effects (on_message frame_parse sample_subscription "<html>") = []
  /\ effects (on_message frame_parse sample_subscription (stringify_plain bodiless_frame))
     = []
  /\ outcome_of (on_message frame_parse sample_subscription
                   (stringify_plain bodiless_frame)) = inl TypeError.
Proof.
  split; [|split].
  - apply (undecodable_frame_faults frame_parse sample_subscription "<html>").
    reflexivity.
  - apply (undecodable_frame_faults frame_parse sample_subscription
             (stringify_plain bodiless_frame)).
    reflexivity.
  - reflexivity.
Defined.

Lemma session_delivers_in_order_witness :
  calls (effects (session sample_parse stringify_plain sample_subscription
                    [Open; Message (stringify_plain reply_frame);
                     Message (stringify_plain alert_frame);
                     Close (JNum 1000) (JStr "normal")]))
  = [(UserFn 3, [JStr "x"]); (DefaultNoop, [JNum 1000; JStr "normal"])].
Proof.
  apply (session_delivers_in_order sample_parse stringify_plain sample_subscription
           [Open; Message (stringify_plain reply_frame);
            Message (stringify_plain alert_frame);
            Close (JNum 1000) (JStr "normal")]).
  - intros args. eexists. reflexivity.
  - exact I.
  - repeat constructor; simpl; eauto.
Defined.

End ListenExamples.

(** * The request of [call] *)

Module CallRequest.
Import Js RapidAPI.

(** X18.  [call] hands the transport one POST to the block URL, with the
    project and the key as basic-auth user and password, and a form that
    is never a falsy value: the [args] given when they are truthy, and an
    empty object in place of [undefined], [null], [false], [0] or the
    empty string. *)
Theorem call_request_form (c : Client) (pack block : string) (args : Data)
    (r : Registrar) :
  exists req form,
    effects (call c pack block args r) = [Requested req]
    /\ method req = "POST"
    /\ uri req = blockURLBuilder pack block
    /\ (auth_user req, auth_pass req) = (project c, key c)
    /\ formData req = Some form
    /\ truthy form = true
    /\ (if truthy args then form = args else form = JObj []).
Proof.
  eexists _, (if truthy args then args else JObj []).
  repeat split.
  - destruct (truthy args) eqn:Hargs; [exact Hargs | reflexivity].
  - destruct (truthy args); reflexivity.
Qed.

End CallRequest.
